(** * docs/conf.py of ComPWA/compwa-org: the Sphinx configuration module

    The module is embedded as a computation in a small reader/writer/error
    monad: it reads the process environment (search path, environment
    variables, the helpers imported from other packages), writes a trace of
    the observable things it does (module-level bindings, in-place
    mutations, child processes, calls into other packages) and either
    finishes or stops at the first exception. *)

From Stdlib Require Import ZArith.
From stdpp Require Import gmap strings list sorting.

Local Open Scope string_scope.
Local Open Scope Z_scope.
Local Open Scope list_scope.

(** ** Python values held by configuration variables *)

#[warnings="-register-all"]
Inductive pyval : Type :=
| PNone
| PBool (b : bool)
| PInt (n : Z)
| PStr (s : string)
| PList (xs : list pyval)
| PTuple (xs : list pyval)
| PDict (kvs : list (string * pyval)).

Definition strs (l : list string) : pyval := PList (PStr <$> l).

(** ** Exceptions *)

Inductive exn : Type :=
| CalledProcessError (returncode : Z) (cmd : list string)
| Raised (kind : string) (detail : string).

(** ** The trace *)

Inductive target : Type :=
| Global (name : string)
| Local (fn var : string)
| Attr (module attr : string).

Inductive event : Type :=
| EAssign (name : string) (v : pyval)
| EMutate (obj : target) (method : string)
| ESpawn (argv : list string)
| ECall (callee : string) (args : list pyval).

(** ** The world the module runs in

    [which] is [shutil.which], [environ] is [os.environ].  A [set] of
    [str] is iterated in an order that depends on the process (string
    hashes are salted), so the order is a field of the world, known only to
    be an enumeration of the set.  [popen] is the fate of a child process
    run to completion: its exit status, or the exception raised when it
    cannot be started.  The remaining fields are the functions this module
    imports from other packages; each call may raise. *)

Record World : Type := {
  which : string → option string;
  environ : gmap string string;
  set_iter : gset string → list string;
  set_iter_perm : ∀ X, set_iter X ≡ₚ elements X;
  popen : list string → exn + Z;
  import__list_technical_reports : exn + unit;
  _list_technical_reports_main : exn + unit;
  set_intersphinx_version_remapping : pyval → exn + unit;
  _get_commit_sha : exn + string;
  pin : string → exn + string;
  pin_minor : string → exn + string;
  get_execution_mode : exn + string
}.

(** ** The monad *)

Definition M (A : Type) : Type := World → list event * (exn + A).

Definition ret {A} (a : A) : M A := λ _, ([], inr a).

Definition bind {A B} (m : M A) (k : A → M B) : M B := λ w,
  match m w with
  | (t, inl e) => (t, inl e)
  | (t, inr a) => let '(t', r) := k a w in (t ++ t', r)
  end.

Definition raise {A} (e : exn) : M A := λ _, ([], inl e).
Definition emit (ev : event) : M unit := λ _, ([ev], inr tt).
Definition ask : M World := λ w, ([], inr w).
Definition call {A} (f : World → exn + A) : M A := λ w, ([], f w).

Notation "x <- m ;; k" := (bind m (λ x, k))
  (at level 100, m at next level, right associativity).
Notation "m ;;; k" := (bind m (λ _, k))
  (at level 100, right associativity).

Definition trace {A} (m : M A) (w : World) : list event := (m w).1.
Definition outcome {A} (m : M A) (w : World) : exn + A := (m w).2.

(** Projections of a trace. *)

Definition spawned (e : event) : option (list string) :=
  match e with ESpawn argv => Some argv | _ => None end.
Definition assigned (e : event) : option string :=
  match e with EAssign name _ => Some name | _ => None end.
Definition mutated (e : event) : option (target * string) :=
  match e with EMutate obj meth => Some (obj, meth) | _ => None end.

Definition spawns (t : list event) : list (list string) := omap spawned t.
Definition assignments (t : list event) : list string := omap assigned t.
Definition mutations (t : list event) : list (target * string) := omap mutated t.

(** ** Builtins *)

(** [k in os.environ] *)
Definition in_environ (w : World) (k : string) : bool :=
  bool_decide (is_Some (environ w !! k)).

(** [shutil.which(cmd) is None] *)
Definition which_is_None (w : World) (cmd : string) : bool :=
  bool_decide (which w cmd = None).

(** [sorted(s)] for a set of strings: the elements, in the order the
    process iterates them, sorted by string comparison.  [String.le] is
    the lexicographic order on character codes, which is how Python
    compares [str]. *)
Definition sorted (w : World) (s : gset string) : list string :=
  merge_sort String.le (set_iter w s).

(** [subprocess.check_call(argv)] *)
Definition check_call (argv : list string) : M Z :=
  emit (ESpawn argv) ;;;
  w <- ask ;;
  match popen w argv with
  | inl e => raise e
  | inr retcode =>
      if bool_decide (retcode = 0) then ret 0
      else raise (CalledProcessError retcode argv)
  end.

(** ** get_nb_exclusion_patterns *)

Definition exclusions_literal : list string := [
  "adr/001/*";
  "adr/002/*";
  "report/000*";
  "report/001*";
  "report/002*";
  "report/005*";
  "report/008*";
  "report/009*";
  "report/010*";
  "report/011*";
  "report/012*";
  "report/013*";
  "report/014*";
  "report/015*";
  "report/017*";
  "report/018*";
  "report/020*";
  "report/021*";
  "report/022*";
  "report/033*"
].

Definition julia_notebooks_literal : list string := [
  "report/019*"
].

Definition get_nb_exclusion_patterns : M (list string) :=
  let exclusions : gset string := list_to_set exclusions_literal in
  let julia_notebooks : gset string := list_to_set julia_notebooks_literal in
  w <- ask ;;
  exclusions <-
    (if which_is_None w "julia" || in_environ w "READTHEDOCS" then
       emit (EMutate (Local "get_nb_exclusion_patterns" "exclusions") "update") ;;;
       ret (exclusions ∪ julia_notebooks)
     else ret exclusions) ;;
  ret (sorted w exclusions).

(** ** install_ijulia *)

Definition install_ijulia : M unit :=
  w <- ask ;;
  if which_is_None w "julia" then ret tt
  else if in_environ w "EXECUTE_NB" || in_environ w "FORCE_EXECUTE_NB" then
    check_call ["julia"; "InstallIJulia.jl"] ;;; ret tt
  else ret tt.

(** ** The module body *)

Definition assign (name : string) (v : pyval) : M unit := emit (EAssign name v).

(** A call into another package: the call is recorded, then it returns or
    raises as the world says. *)
Definition extern {A} (callee : string) (args : list pyval)
    (f : World → exn + A) : M A :=
  emit (ECall callee args) ;;; call f.

(** [d[k]] *)
Fixpoint dict_get (kvs : list (string * pyval)) (k : string) : option pyval :=
  match kvs with
  | [] => None
  | (k', v) :: kvs => if decide (k' = k) then Some v else dict_get kvs k
  end.

Definition getitem (d : pyval) (k : string) : M pyval :=
  match d with
  | PDict kvs =>
      match dict_get kvs k with
      | Some v => ret v
      | None => raise (Raised "KeyError" k)
      end
  | _ => raise (Raised "TypeError" k)
  end.

(** The line feed of the triple-quoted literals. *)
Definition nl : string := String (Ascii.ascii_of_nat 10) EmptyString.

(** An intersphinx target: [(url, None)]. *)
Definition inventory (url : string) : pyval := PTuple [PStr url; PNone].

Definition intersphinx_version_remapping : pyval :=
  PDict [
    ("ipython", PDict [
      ("8.12.2", PStr "8.12.1");
      ("8.12.3", PStr "8.12.1")
    ]);
    ("ipywidgets", PDict [
      ("8.0.3", PStr "8.0.5");
      ("8.0.4", PStr "8.0.5");
      ("8.0.6", PStr "8.0.5");
      ("8.1.1", PStr "8.1.2")
    ]);
    ("matplotlib", PDict [("3.5.1", PStr "3.5.0")]);
    ("mpl-interactions", PDict [("0.24.1", PStr "0.24.0")])
  ].

Definition exclude_patterns_literal : list string := [
  "**.ipynb_checkpoints";
  "*build";
  "*template.md";
  "adr/template.md";
  "tests"
].

Definition extensions_literal : list string := [
  "myst_nb";
  "sphinx.ext.autosectionlabel";
  "sphinx.ext.intersphinx";
  "sphinx.ext.mathjax";
  "sphinx.ext.napoleon";
  "sphinx.ext.todo";
  "sphinx_api_relink";
  "sphinx_codeautolink";
  "sphinx_comments";
  "sphinx_copybutton";
  "sphinx_design";
  "sphinx_hep_pdgref";
  "sphinx_pybtex_etal_style";
  "sphinx_remove_toctrees";
  "sphinx_thebe";
  "sphinx_togglebutton";
  "sphinxcontrib.bibtex"
].

Definition linkcheck_ignore_literal : list string := [
  "http://127.0.0.1:8000";
  "https://atom.io";
  "https://doi.org/10.1002/andp.19955070504";
  "https://doi.org/10.1155/2020/6674595";
  "https://doi.org/10.7566/JPSCP.26.022002";
  "https://downloads.hindawi.com";
  "https://github.com/organizations/ComPWA/settings/repository-defaults";
  "https://ieeexplore.ieee.org/document/6312940";
  "https://indico.ific.uv.es/event/6803";
  "https://journals.aps.org";
  "https://leetcode.com";
  "https://mybinder.org";
  "https://open.vscode.dev";
  "https://rosettacode.org";
  "https://stackoverflow.com";
  "https://via.placeholder.com";
  "https://www.andiamo.co.uk/resources/iso-language-codes";
  "https://www.bookfinder.com";
  "https://github.com/ComPWA/RUB-EP1-AG/.*";
  "https://github.com/orgs/ComPWA/projects/\d+"
].

Definition myst_enable_extensions_literal : list string := [
  "amsmath";
  "colon_fence";
  "dollarmath";
  "smartquotes";
  "substitution"
].

Definition html_theme_options_value (ORGANIZATION REPO_NAME BRANCH : string)
    : pyval :=
  PDict [
    ("icon_links", PList [
      PDict [
        ("name", PStr "GitHub");
        ("url", PStr ("https://github.com/" +:+ ORGANIZATION));
        ("icon", PStr "fa-brands fa-github")
      ];
      PDict [
        ("name", PStr "Zenodo");
        ("url", PStr "https://doi.org/10.5281/zenodo.6908149");
        ("icon", PStr "https://zenodo.org/badge/DOI/10.5281/zenodo.6908149.svg");
        ("type", PStr "url")
      ]
    ]);
    ("logo", PDict [("text", PStr "The ComPWA project")]);
    ("repository_url",
      PStr ("https://github.com/" +:+ ORGANIZATION +:+ "/" +:+ REPO_NAME));
    ("repository_branch", PStr BRANCH);
    ("path_to_docs", PStr "docs");
    ("use_download_button", PBool false);
    ("use_edit_page_button", PBool true);
    ("use_issues_button", PBool true);
    ("use_repository_button", PBool true);
    ("use_source_button", PBool true);
    ("launch_buttons", PDict [
      ("binderhub_url", PStr "https://mybinder.org");
      ("colab_url", PStr "https://colab.research.google.com");
      ("deepnote_url", PStr "https://deepnote.com");
      ("notebook_interface", PStr "jupyterlab");
      ("thebe", PBool true)
    ]);
    ("show_toc_level", PInt 2)
  ].

Definition conf : M unit :=
  emit (EMutate (Attr "sys" "path") "insert") ;;;
  extern "import" [PStr "_list_technical_reports"]
    import__list_technical_reports ;;;
  extern "_list_technical_reports.main" [] _list_technical_reports_main ;;;
  install_ijulia ;;;
  extern "set_intersphinx_version_remapping" [intersphinx_version_remapping]
    (λ w, set_intersphinx_version_remapping w intersphinx_version_remapping) ;;;
  BRANCH <- extern "_get_commit_sha" [] _get_commit_sha ;;
  assign "BRANCH" (PStr BRANCH) ;;;
  let ORGANIZATION := "ComPWA" in
  assign "ORGANIZATION" (PStr ORGANIZATION) ;;;
  let REPO_NAME := "compwa.github.io" in
  assign "REPO_NAME" (PStr REPO_NAME) ;;;
  let REPO_TITLE := "ComPWA Organization" in
  assign "REPO_TITLE" (PStr REPO_TITLE) ;;;
  let BINDER_LINK :=
    "https://mybinder.org/v2/gh/ComPWA/" +:+ REPO_NAME +:+ "/" +:+ BRANCH
      +:+ "?filepath=docs/usage" in
  assign "BINDER_LINK" (PStr BINDER_LINK) ;;;
  assign "autosectionlabel_prefix_document" (PBool true) ;;;
  assign "bibtex_bibfiles" (strs ["bibliography.bib"]) ;;;
  assign "bibtex_reference_style" (PStr "author_year") ;;;
  assign "codeautolink_concat_default" (PBool true) ;;;
  assign "codeautolink_global_preface" (PStr (
    nl +:+ "import matplotlib.pyplot as plt"
    +:+ nl +:+ "import numpy as np"
    +:+ nl +:+ "import sympy as sp"
    +:+ nl +:+ "from IPython.display import display"
    +:+ nl)) ;;;
  assign "comments_config" (PDict [
    ("hypothesis", PBool true);
    ("utterances", PDict [
      ("repo", PStr (ORGANIZATION +:+ "/" +:+ REPO_NAME));
      ("issue-term", PStr "pathname");
      ("label", PStr "📝 Docs")
    ])
  ]) ;;;
  assign "copybutton_prompt_is_regexp" (PBool true) ;;;
  assign "copybutton_prompt_text" (PStr ">>> |\.\.\. ") ;;;
  assign "copyright" (PStr ("2020, " +:+ ORGANIZATION)) ;;;
  assign "default_role" (PStr "py:obj") ;;;
  assign "exclude_patterns" (strs exclude_patterns_literal) ;;;
  assign "extensions" (strs extensions_literal) ;;;
  assign "graphviz_output_format" (PStr "svg") ;;;
  assign "html_css_files" (strs [
    "https://cdnjs.cloudflare.com/ajax/libs/font-awesome/6.1.1/css/all.min.css"
  ]) ;;;
  assign "html_favicon" (PStr "_static/favicon.ico") ;;;
  assign "html_js_files" (strs [
    "https://cdn.datatables.net/1.13.6/js/jquery.dataTables.min.js";
    "https://cdnjs.cloudflare.com/ajax/libs/require.js/2.3.4/require.min.js"
  ]) ;;;
  assign "html_last_updated_fmt" (PStr "%-d %B %Y") ;;;
  assign "html_logo" (PStr
    "https://raw.githubusercontent.com/ComPWA/ComPWA/04e5199/doc/images/logo.svg"
  ) ;;;
  assign "html_show_copyright" (PBool false) ;;;
  assign "html_static_path" (strs ["_static"]) ;;;
  assign "html_theme" (PStr "sphinx_book_theme") ;;;
  let html_theme_options :=
    html_theme_options_value ORGANIZATION REPO_NAME BRANCH in
  assign "html_theme_options" html_theme_options ;;;
  assign "html_title" (PStr "Common Partial Wave Analysis Project") ;;;
  pin_attrs <- extern "pin" [PStr "attrs"] (λ w, pin w "attrs") ;;
  pin_IPython <- extern "pin" [PStr "IPython"] (λ w, pin w "IPython") ;;
  pin_ipywidgets <-
    extern "pin" [PStr "ipywidgets"] (λ w, pin w "ipywidgets") ;;
  pin_matplotlib <-
    extern "pin" [PStr "matplotlib"] (λ w, pin w "matplotlib") ;;
  pin_mpl_interactions <-
    extern "pin" [PStr "mpl-interactions"] (λ w, pin w "mpl-interactions") ;;
  pin_minor_numpy <-
    extern "pin_minor" [PStr "numpy"] (λ w, pin_minor w "numpy") ;;
  assign "intersphinx_mapping" (PDict [
    ("ampform-0.14.x", inventory "https://ampform.readthedocs.io/0.14.x");
    ("ampform", inventory "https://ampform.readthedocs.io/stable");
    ("attrs", inventory ("https://www.attrs.org/en/" +:+ pin_attrs));
    ("expertsystem", inventory "https://expertsystem.readthedocs.io/stable");
    ("graphviz", inventory "https://graphviz.readthedocs.io/en/stable");
    ("hepstats", inventory "https://scikit-hep.org/hepstats");
    ("IPython",
      inventory ("https://ipython.readthedocs.io/en/" +:+ pin_IPython));
    ("ipywidgets",
      inventory ("https://ipywidgets.readthedocs.io/en/" +:+ pin_ipywidgets));
    ("jax", inventory "https://jax.readthedocs.io/en/latest");
    ("matplotlib", inventory ("https://matplotlib.org/" +:+ pin_matplotlib));
    ("mpl_interactions",
      inventory ("https://mpl-interactions.readthedocs.io/en/"
                 +:+ pin_mpl_interactions));
    ("numba", inventory "https://numba.pydata.org/numba-doc/latest");
    ("numpy", inventory ("https://numpy.org/doc/" +:+ pin_minor_numpy));
    ("pdg", inventory "https://pdgapi.lbl.gov/doc");
    ("plotly", inventory "https://plotly.com/python-api-reference/");
    ("pwa", inventory "https://pwa.readthedocs.io");
    ("python", inventory "https://docs.python.org/3");
    ("qrules-0.9.x", inventory "https://qrules.readthedocs.io/0.9.x");
    ("qrules", inventory "https://qrules.readthedocs.io/stable");
    ("scipy", inventory "https://docs.scipy.org/doc/scipy-1.7.0");
    ("sympy", inventory "https://docs.sympy.org/latest");
    ("tensorwaves", inventory "https://tensorwaves.readthedocs.io/stable");
    ("torch", inventory "https://pytorch.org/docs/stable");
    ("zfit", inventory "https://zfit.readthedocs.io/en/latest")
  ]) ;;;
  assign "linkcheck_anchors" (PBool false) ;;;
  assign "linkcheck_ignore" (strs linkcheck_ignore_literal) ;;;
  assign "myst_enable_extensions" (strs myst_enable_extensions_literal) ;;;
  assign "myst_heading_anchors" (PInt 4) ;;;
  mode <- extern "get_execution_mode" [] get_execution_mode ;;
  assign "myst_substitutions" (PDict [
    ("branch", PStr BRANCH);
    ("remark_019", PStr (
      if bool_decide (mode ≠ "off") then
        "Notice how a new file [`019/Project.toml`](./019/Project.toml) and "
        +:+ " [`019/Manifest.toml`](./019/Manifest.toml) are automatically generated."
      else ""));
    ("run_interactive", PStr (
      nl +:+ "```{margin}"
      +:+ nl +:+ "Run this notebook [on Binder](" +:+ BINDER_LINK +:+ ") or"
      +:+ nl +:+ "{ref}`locally on Jupyter Lab <develop:Jupyter Notebooks>` to interactively"
      +:+ nl +:+ "modify the parameters."
      +:+ nl +:+ "```"
      +:+ nl))
  ]) ;;;
  assign "myst_update_mathjax" (PBool false) ;;;
  nb_execution_excludepatterns <- get_nb_exclusion_patterns ;;
  assign "nb_execution_excludepatterns" (strs nb_execution_excludepatterns) ;;;
  nb_execution_mode <- extern "get_execution_mode" [] get_execution_mode ;;
  assign "nb_execution_mode" (PStr nb_execution_mode) ;;;
  assign "nb_execution_show_tb" (PBool true) ;;;
  assign "nb_execution_timeout" (PInt (-1)) ;;;
  assign "nb_output_stderr" (PStr "remove") ;;;
  assign "nitpicky" (PBool true) ;;;
  assign "primary_domain" (PStr "py") ;;;
  assign "project" (PStr REPO_TITLE) ;;;
  assign "remove_from_toctrees" (strs [
    "adr/*";
    "report/*"
  ]) ;;;
  assign "source_suffix" (PDict [
    (".ipynb", PStr "myst-nb");
    (".md", PStr "myst-nb")
  ]) ;;;
  assign "suppress_warnings" (strs [
    "myst.domains";
    "mystnb.unknown_mime_type"
  ]) ;;;
  repository_url <- getitem html_theme_options "repository_url" ;;
  repository_branch <- getitem html_theme_options "repository_branch" ;;
  assign "thebe_config" (PDict [
    ("repository_url", repository_url);
    ("repository_branch", repository_branch)
  ]) ;;;
  assign "todo_include_todos" (PBool true).

(** ** Concrete worlds *)

(** A world in which every imported helper returns, child processes exit
    with [status], and only [julia] can be on the search path. *)
Definition world (julia : option string) (env : gmap string string)
    (status : Z) : World := {|
  which := λ cmd, if decide (cmd = "julia") then julia else None;
  environ := env;
  set_iter := elements;
  set_iter_perm := λ X, reflexivity (elements X);
  popen := λ _, inr status;
  import__list_technical_reports := inr tt;
  _list_technical_reports_main := inr tt;
  set_intersphinx_version_remapping := λ _, inr tt;
  _get_commit_sha := inr "0123abc";
  pin := λ _, inr "stable";
  pin_minor := λ _, inr "1.26";
  get_execution_mode := inr "off"
|}.

(** The same world, in a process that iterates sets back to front. *)
Definition world_reversed (julia : option string) (env : gmap string string)
    (status : Z) : World := {|
  which := which (world julia env status);
  environ := env;
  set_iter := λ X, reverse (elements X);
  set_iter_perm := λ X, reverse_Permutation (elements X);
  popen := popen (world julia env status);
  import__list_technical_reports := inr tt;
  _list_technical_reports_main := inr tt;
  set_intersphinx_version_remapping := λ _, inr tt;
  _get_commit_sha := inr "fedcba9";
  pin := λ _, inr "latest";
  pin_minor := λ _, inr "2.0";
  get_execution_mode := inr "cache"
|}.

Definition julia_path : option string := Some "/usr/local/bin/julia".

(** ** Notions used by the statements *)

Definition finishes {A} (m : M A) (w : World) : Prop :=
  ∃ a, outcome m w = inr a.

(** Seen through a projection [f] of the trace, [m] writes [L] when it
    finishes and an initial part of [L] when it stops early. *)
Definition emits {X A} (f : event → option X) (m : M A) (L : list X) : Prop :=
  ∀ w, omap f (trace m w) `prefix_of` L
       ∧ (finishes m w → omap f (trace m w) = L).

(** Every event [m] writes satisfies [P]. *)
Definition always {A} (P : event → Prop) (m : M A) : Prop :=
  ∀ w, Forall P (trace m w).

(** The command line of the only child process. *)
Definition install_argv : list string := ["julia"; "InstallIJulia.jl"].

(** The exclusion list once the julia notebooks have been added. *)
Definition exclusions_with_julia : list string :=
  merge_sort String.le (exclusions_literal ++ julia_notebooks_literal).

(** The two inputs of [get_nb_exclusion_patterns]. *)
Definition julia_present (w : World) : Prop := is_Some (which w "julia").
Definition hosted_build (w : World) : Prop :=
  is_Some (environ w !! "READTHEDOCS").

(** The module-level names, in the order the file binds them. *)
Definition config_names : list string := [
  "BRANCH"; "ORGANIZATION"; "REPO_NAME"; "REPO_TITLE"; "BINDER_LINK";
  "autosectionlabel_prefix_document"; "bibtex_bibfiles";
  "bibtex_reference_style"; "codeautolink_concat_default";
  "codeautolink_global_preface"; "comments_config";
  "copybutton_prompt_is_regexp"; "copybutton_prompt_text"; "copyright";
  "default_role"; "exclude_patterns"; "extensions";
  "graphviz_output_format"; "html_css_files"; "html_favicon";
  "html_js_files"; "html_last_updated_fmt"; "html_logo";
  "html_show_copyright"; "html_static_path"; "html_theme";
  "html_theme_options"; "html_title"; "intersphinx_mapping";
  "linkcheck_anchors"; "linkcheck_ignore"; "myst_enable_extensions";
  "myst_heading_anchors"; "myst_substitutions"; "myst_update_mathjax";
  "nb_execution_excludepatterns"; "nb_execution_mode";
  "nb_execution_show_tb"; "nb_execution_timeout"; "nb_output_stderr";
  "nitpicky"; "primary_domain"; "project"; "remove_from_toctrees";
  "source_suffix"; "suppress_warnings"; "thebe_config";
  "todo_include_todos"
].

(** How often a run binds [name]. *)
Definition times_assigned (name : string) (t : list event) : nat :=
  length (filter (λ n, n = name) (assignments t)).

(** An in-place mutation of an object bound to a module-level name. *)
Definition mutates_global (e : event) : Prop :=
  match e with EMutate (Global _) _ => True | _ => False end.

(** A run adds to the base set when its result has a pattern the base set
    lacks, and removes from it when its result lacks a pattern of the base
    set. *)
Definition adds_to_base (w : World) : Prop :=
  ∃ l p, outcome get_nb_exclusion_patterns w = inr l
         ∧ p ∈ l ∧ p ∉ exclusions_literal.
Definition removes_from_base (w : World) : Prop :=
  ∃ l p, outcome get_nb_exclusion_patterns w = inr l
         ∧ p ∈ exclusions_literal ∧ p ∉ l.

(** The in-place update of the local set. *)
Definition update_exclusions : target * string :=
  (Local "get_nb_exclusion_patterns" "exclusions", "update").

(** ** Notions for the module as a whole *)

(** The module's namespace after a run: a binding replaces the earlier
    binding of the same name. *)
Definition bind_global (g : gmap string pyval) (e : event)
    : gmap string pyval :=
  match e with EAssign name v => <[name := v]> g | _ => g end.

Definition globals (t : list event) : gmap string pyval :=
  foldl bind_global ∅ t.

(** The bindings of a run, in order, with their values. *)
Definition binding (e : event) : option (string * pyval) :=
  match e with EAssign name v => Some (name, v) | _ => None end.

Definition bindings (t : list event) : list (string * pyval) :=
  omap binding t.

(** In world [w], [m] ends with [r] after making the bindings [L]. *)
Definition yields {A} (m : M A) (w : World) (L : list (string * pyval))
    (r : exn + A) : Prop :=
  outcome m w = r ∧ bindings (trace m w) = L.

(** The configuration a run leaves behind. *)
Definition config (w : World) : gmap string pyval := globals (trace conf w).

(** [v[k]] for a value that may be missing. *)
Definition item (v : option pyval) (k : string) : option pyval :=
  match v with Some (PDict kvs) => dict_get kvs k | _ => None end.



(** The exception a call ended with, if it did. *)
Definition failure {A} (r : exn + A) : option exn :=
  match r with inl e => Some e | inr _ => None end.

(** The steps of the module that can raise, in program order: the import
    (line 23), [main()] (line 64), [install_ijulia()] (line 65),
    [set_intersphinx_version_remapping] (line 66), [_get_commit_sha]
    (line 81), the [pin] and [pin_minor] calls of [intersphinx_mapping]
    (lines 190-203) and [get_execution_mode] (lines 252 and 265). *)
Definition fallible_steps (w : World) : list (option exn) := [
  failure (import__list_technical_reports w);
  failure (_list_technical_reports_main w);
  failure (outcome install_ijulia w);
  failure (set_intersphinx_version_remapping w intersphinx_version_remapping);
  failure (_get_commit_sha w);
  failure (pin w "attrs");
  failure (pin w "IPython");
  failure (pin w "ipywidgets");
  failure (pin w "matplotlib");
  failure (pin w "mpl-interactions");
  failure (pin_minor w "numpy");
  failure (get_execution_mode w)
].

Fixpoint first_failure (steps : list (option exn)) : option exn :=
  match steps with
  | [] => None
  | Some e :: _ => Some e
  | None :: steps => first_failure steps
  end.

(** What [get_nb_exclusion_patterns] returns in a world. *)
Definition exclusions_of (w : World) : list string :=
  if which_is_None w "julia" || in_environ w "READTHEDOCS"
  then exclusions_with_julia else exclusions_literal.


(** An intersphinx target [(url, None)] whose URL is an https one. *)
Definition https_inventory (v : pyval) : Prop :=
  ∃ rest, v = PTuple [PStr ("https://" +:+ rest); PNone].

(** ** The monad's equations *)

Lemma trace_bind_inl {A B} (m : M A) (k : A → M B) w e :
  outcome m w = inl e →
  trace (bind m k) w = trace m w ∧ outcome (bind m k) w = inl e.
Proof.
  unfold trace, outcome, bind. destruct (m w) as [t [e'|a]]; simpl.
  - intros [= ->]. done.
  - discriminate.
Qed.

Lemma trace_bind_inr {A B} (m : M A) (k : A → M B) w a :
  outcome m w = inr a →
  trace (bind m k) w = trace m w ++ trace (k a) w
  ∧ outcome (bind m k) w = outcome (k a) w.
Proof.
  unfold trace, outcome, bind. destruct (m w) as [t [e'|a']]; simpl.
  - discriminate.
  - intros [= ->]. by destruct (k a w).
Qed.

Lemma finishes_bind {A B} (m : M A) (k : A → M B) w :
  finishes (bind m k) w → ∃ a, outcome m w = inr a ∧ finishes (k a) w.
Proof.
  intros [b Hb]. destruct (outcome m w) as [e|a] eqn:Hm.
  - destruct (trace_bind_inl m k w e Hm) as [_ Ho]. congruence.
  - destruct (trace_bind_inr m k w a Hm) as [_ Ho].
    exists a. split; [done|]. exists b. congruence.
Qed.

(** ** Rules for [emits] *)

Section Emits.
Context {X : Type} (f : event → option X).

Lemma emits_ret {A} (a : A) : emits f (ret a) [].
Proof. intros w. by split. Qed.

Lemma emits_raise {A} e : emits f (@raise A e) [].
Proof. intros w. by split. Qed.

Lemma emits_call {A} (g : World → exn + A) : emits f (call g) [].
Proof. intros w. by split. Qed.

Lemma emits_emit ev : emits f (emit ev) (option_list (f ev)).
Proof. intros w. unfold trace, emit; simpl. destruct (f ev); by split. Qed.

Lemma emits_bind {A B} (m : M A) (k : A → M B) L1 L2 :
  emits f m L1 → (∀ a, emits f (k a) L2) → emits f (bind m k) (L1 ++ L2).
Proof.
  intros Hm Hk w. destruct (Hm w) as [Hp Hf].
  destruct (outcome m w) as [e|a] eqn:Ho.
  - destruct (trace_bind_inl m k w e Ho) as [-> Hb]. split.
    + by apply prefix_app_r.
    + intros [b Hb']. congruence.
  - destruct (trace_bind_inr m k w a Ho) as [-> Hb].
    destruct (Hk a w) as [Hp' Hf']. rewrite omap_app.
    rewrite (Hf (ex_intro _ a Ho)). split.
    + by apply prefix_app.
    + intros [b Hb']. f_equal. apply Hf'. exists b. congruence.
Qed.

Lemma emits_eq {A} (m : M A) L L' : emits f m L → L = L' → emits f m L'.
Proof. by intros H <-. Qed.
End Emits.

(** ** Rules for [always] *)

Section Always.
Context (P : event → Prop).


Lemma always_raise {A} e : always P (@raise A e).
Proof. intros w. constructor. Qed.

Lemma always_call {A} (g : World → exn + A) : always P (call g).
Proof. intros w. constructor. Qed.

Lemma always_emit ev : P ev → always P (emit ev).
Proof. intros H w. by repeat constructor. Qed.

Lemma always_bind {A B} (m : M A) (k : A → M B) :
  always P m → (∀ a, always P (k a)) → always P (bind m k).
Proof.
  intros Hm Hk w. destruct (outcome m w) as [e|a] eqn:Ho.
  - destruct (trace_bind_inl m k w e Ho) as [-> _]. apply Hm.
  - destruct (trace_bind_inr m k w a Ho) as [-> _].
    apply Forall_app. split; [apply Hm | apply Hk].
Qed.
End Always.

(** ** String order and [sorted] *)

Lemma sorted_any_order (w : World) (s : gset string) (l : list string) :
  l ≡ₚ elements s → Sorted String.le l → sorted w s = l.
Proof.
  intros Hp Hs. apply (Sorted_unique String.le); [|done|].
  - apply (Sorted_merge_sort String.le).
  - unfold sorted. rewrite merge_sort_Permutation, set_iter_perm. done.
Qed.

Lemma sorted_literal (w : World) (l : list string) :
  NoDup l → sorted w (list_to_set l) = merge_sort String.le l.
Proof.
  intros Hn. apply sorted_any_order.
  - by rewrite merge_sort_Permutation, elements_list_to_set.
  - apply (Sorted_merge_sort String.le).
Qed.

Lemma exclusions_literal_sorted :
  merge_sort String.le exclusions_literal = exclusions_literal.
Proof. vm_compute. reflexivity. Qed.

Lemma exclusions_with_julia_eq :
  exclusions_with_julia = [
    "adr/001/*"; "adr/002/*"; "report/000*"; "report/001*"; "report/002*";
    "report/005*"; "report/008*"; "report/009*"; "report/010*";
    "report/011*"; "report/012*"; "report/013*"; "report/014*";
    "report/015*"; "report/017*"; "report/018*"; "report/019*";
    "report/020*"; "report/021*"; "report/022*"; "report/033*"
  ].
Proof. vm_compute. reflexivity. Qed.

Lemma NoDup_exclusions_literal : NoDup exclusions_literal.
Proof. compute_done. Qed.

Lemma NoDup_exclusions_all :
  NoDup (exclusions_literal ++ julia_notebooks_literal).
Proof. compute_done. Qed.

(** ** What the two helpers do, branch by branch *)

Lemma get_nb_exclusion_patterns_run (w : World) :
  get_nb_exclusion_patterns w =
    if which_is_None w "julia" || in_environ w "READTHEDOCS" then
      ([EMutate (Local "get_nb_exclusion_patterns" "exclusions") "update"],
       inr exclusions_with_julia)
    else ([], inr exclusions_literal).
Proof.
  unfold get_nb_exclusion_patterns, bind, ask, emit, ret.
  destruct (which_is_None w "julia" || in_environ w "READTHEDOCS");
    cbv beta iota zeta.
  - rewrite <- list_to_set_app_L.
    by rewrite (sorted_literal w _ NoDup_exclusions_all).
  - rewrite (sorted_literal w _ NoDup_exclusions_literal).
    by rewrite exclusions_literal_sorted.
Qed.

Lemma install_ijulia_run (w : World) :
  install_ijulia w =
    if which_is_None w "julia" then ([], inr tt)
    else if in_environ w "EXECUTE_NB" || in_environ w "FORCE_EXECUTE_NB" then
      ([ESpawn install_argv],
       match popen w install_argv with
       | inl e => inl e
       | inr retcode =>
           if bool_decide (retcode = 0) then inr tt
           else inl (CalledProcessError retcode install_argv)
       end)
    else ([], inr tt).
Proof.
  unfold install_ijulia, check_call, bind, ask, emit, ret, raise, install_argv.
  destruct (which_is_None w "julia"); [done|].
  destruct (in_environ w "EXECUTE_NB" || in_environ w "FORCE_EXECUTE_NB");
    [|done].
  simpl. destruct (popen w _) as [e|rc]; [done|].
  by destruct (bool_decide (rc = 0)).
Qed.

(** The helpers on concrete worlds. *)

Example install_ijulia_failing_child :
  install_ijulia (world julia_path {["EXECUTE_NB" := "1"]} 1) =
    ([ESpawn ["julia"; "InstallIJulia.jl"]],
     inl (CalledProcessError 1 ["julia"; "InstallIJulia.jl"])).
Proof. vm_compute. reflexivity. Qed.

Example install_ijulia_without_julia :
  install_ijulia (world None {["EXECUTE_NB" := "1"]} 1) = ([], inr tt).
Proof. vm_compute. reflexivity. Qed.

Example exclusions_iterated_backwards :
  let w := world_reversed julia_path ∅ 0 in
  set_iter w (list_to_set exclusions_literal) ≠ exclusions_literal
  ∧ get_nb_exclusion_patterns w = ([], inr exclusions_literal).
Proof. split; [vm_compute; discriminate | vm_compute; reflexivity]. Qed.

Lemma which_is_None_true w cmd : which_is_None w cmd = true ↔ which w cmd = None.
Proof. apply bool_decide_eq_true. Qed.

Lemma which_is_None_false w cmd :
  which_is_None w cmd = false ↔ is_Some (which w cmd).
Proof.
  unfold which_is_None. rewrite bool_decide_eq_false.
  by rewrite <- not_eq_None_Some.
Qed.

Lemma in_environ_true w k : in_environ w k = true ↔ is_Some (environ w !! k).
Proof. apply bool_decide_eq_true. Qed.

Lemma in_environ_false w k :
  in_environ w k = false ↔ ¬ is_Some (environ w !! k).
Proof. apply bool_decide_eq_false. Qed.

Lemma extern_run {A} callee args (f : World → exn + A) w :
  extern callee args f w = ([ECall callee args], f w).
Proof. unfold extern, bind, emit, call. simpl. by destruct (f w). Qed.

(** ** install_ijulia *)

(** C1: when julia is on the search path and EXECUTE_NB or FORCE_EXECUTE_NB
    is set, install_ijulia starts exactly one child process, the
    interpreter on InstallIJulia.jl. *)
Theorem install_ijulia_spawns_once (w : World) :
  julia_present w →
  is_Some (environ w !! "EXECUTE_NB")
    ∨ is_Some (environ w !! "FORCE_EXECUTE_NB") →
  spawns (trace install_ijulia w) = [["julia"; "InstallIJulia.jl"]].
Proof.
  intros Hj He. unfold trace. rewrite install_ijulia_run.
  apply which_is_None_false in Hj. rewrite Hj.
  assert (in_environ w "EXECUTE_NB" || in_environ w "FORCE_EXECUTE_NB" = true)
    as ->.
  { apply orb_true_iff. by rewrite !in_environ_true. }
  reflexivity.
Qed.

Lemma install_ijulia_spawns_once_witness :
  let w := world julia_path {["FORCE_EXECUTE_NB" := "yes"]} 3 in
  julia_present w
  ∧ (is_Some (environ w !! "EXECUTE_NB")
     ∨ is_Some (environ w !! "FORCE_EXECUTE_NB"))
  ∧ spawns (trace install_ijulia w) = [["julia"; "InstallIJulia.jl"]].
Proof.
  intros w.
  assert (julia_present w) as Hj by (vm_compute; eauto).
  assert (is_Some (environ w !! "EXECUTE_NB")
          ∨ is_Some (environ w !! "FORCE_EXECUTE_NB")) as He
    by (right; vm_compute; eauto).
  exact (conj Hj (conj He (install_ijulia_spawns_once w Hj He))).
Defined.

(** C2: when julia is not on the search path, install_ijulia starts no
    child process (it writes nothing at all and returns), whatever the
    environment variables are. *)
Theorem install_ijulia_absent_no_spawn (w : World) :
  which w "julia" = None →
  spawns (trace install_ijulia w) = []
  ∧ trace install_ijulia w = []
  ∧ outcome install_ijulia w = inr tt.
Proof.
  intros Hj. unfold trace, outcome. rewrite install_ijulia_run.
  apply which_is_None_true in Hj. by rewrite Hj.
Qed.

Lemma install_ijulia_absent_no_spawn_witness :
  let w := world None {["EXECUTE_NB" := "1"; "FORCE_EXECUTE_NB" := "1"]} 0 in
  which w "julia" = None ∧ spawns (trace install_ijulia w) = [].
Proof.
  intros w.
  assert (which w "julia" = None) as Hj by reflexivity.
  exact (conj Hj (proj1 (install_ijulia_absent_no_spawn w Hj))).
Defined.

(** C6: when julia is on the search path and neither EXECUTE_NB nor
    FORCE_EXECUTE_NB is set, install_ijulia starts no child process. *)
Theorem install_ijulia_disabled_no_spawn (w : World) :
  julia_present w →
  ¬ is_Some (environ w !! "EXECUTE_NB") →
  ¬ is_Some (environ w !! "FORCE_EXECUTE_NB") →
  spawns (trace install_ijulia w) = []
  ∧ outcome install_ijulia w = inr tt.
Proof.
  intros Hj He Hf. unfold trace, outcome. rewrite install_ijulia_run.
  apply which_is_None_false in Hj. apply in_environ_false in He, Hf.
  by rewrite Hj, He, Hf.
Qed.

Lemma install_ijulia_disabled_no_spawn_witness :
  let w := world julia_path {["READTHEDOCS" := "True"]} 1 in
  julia_present w
  ∧ ¬ is_Some (environ w !! "EXECUTE_NB")
  ∧ ¬ is_Some (environ w !! "FORCE_EXECUTE_NB")
  ∧ spawns (trace install_ijulia w) = [].
Proof.
  intros w.
  assert (julia_present w) as Hj by (vm_compute; eauto).
  assert (¬ is_Some (environ w !! "EXECUTE_NB")) as He
    by (vm_compute; intros [? [=]]).
  assert (¬ is_Some (environ w !! "FORCE_EXECUTE_NB")) as Hf
    by (vm_compute; intros [? [=]]).
  exact (conj Hj (conj He (conj Hf
    (proj1 (install_ijulia_disabled_no_spawn w Hj He Hf))))).
Defined.

Lemma run_bind_inr {A B} (m : M A) (k : A → M B) w t a :
  m w = (t, inr a) → bind m k w = (t ++ (k a w).1, (k a w).2).
Proof. unfold bind. intros ->. by destruct (k a w). Qed.

Lemma run_bind_inl {A B} (m : M A) (k : A → M B) w t e :
  m w = (t, inl e) → bind m k w = (t, inl e).
Proof. unfold bind. by intros ->. Qed.

(** When the installer raises, the module stops there: the exception is
    the module's outcome and no configuration value has been bound. *)
Lemma conf_stops_at_install (w : World) (e : exn) :
  import__list_technical_reports w = inr tt →
  _list_technical_reports_main w = inr tt →
  outcome install_ijulia w = inl e →
  outcome conf w = inl e ∧ assignments (trace conf w) = [].
Proof.
  intros Hi Hm He. unfold outcome, trace, conf in *.
  rewrite (run_bind_inr _ _ w _ tt eq_refl).
  rewrite (run_bind_inr _ _ w _ tt (eq_trans (extern_run _ _ _ w)
    (f_equal (pair _) Hi))).
  rewrite (run_bind_inr _ _ w _ tt (eq_trans (extern_run _ _ _ w)
    (f_equal (pair _) Hm))).
  destruct (install_ijulia w) as [t o] eqn:Hrun. simpl in He. subst o.
  rewrite (run_bind_inl _ _ w t e Hrun). simpl. split; [done|].
  rewrite install_ijulia_run in Hrun.
  repeat case_match; simplify_eq; done.
Qed.

(** C7: when the child process started by install_ijulia exits with a
    non-zero status, install_ijulia raises CalledProcessError, without a
    second attempt, and the exception ends the module's execution before
    any configuration value is bound; when the child exits with status
    zero, install_ijulia returns. *)
Theorem install_ijulia_propagates_failure (w : World) (status : Z) :
  spawns (trace install_ijulia w) ≠ [] →
  popen w install_argv = inr status →
  spawns (trace install_ijulia w) = [install_argv]
  ∧ (status = 0 → outcome install_ijulia w = inr tt)
  ∧ (status ≠ 0 →
       outcome install_ijulia w = inl (CalledProcessError status install_argv)
       ∧ (import__list_technical_reports w = inr tt →
          _list_technical_reports_main w = inr tt →
          outcome conf w = inl (CalledProcessError status install_argv)
          ∧ assignments (trace conf w) = [])).
Proof.
  intros Hs Hp.
  assert (install_ijulia w =
    ([ESpawn install_argv],
     if bool_decide (status = 0) then inr tt
     else inl (CalledProcessError status install_argv))) as Hrun.
  { unfold trace in Hs. rewrite install_ijulia_run in Hs |- *.
    repeat case_match; simplify_eq; first [done | congruence]. }
  unfold trace, outcome at 1 2. rewrite Hrun. simpl.
  split; [done|]. split.
  - intros ->. done.
  - intros Hne. rewrite bool_decide_eq_false_2 by done. split; [done|].
    intros Hi Hm. apply conf_stops_at_install; [done..|].
    unfold outcome. rewrite Hrun. simpl.
    by rewrite bool_decide_eq_false_2.
Qed.

Lemma install_ijulia_propagates_failure_witness :
  let w := world julia_path {["EXECUTE_NB" := ""]} 1 in
  spawns (trace install_ijulia w) ≠ []
  ∧ popen w install_argv = inr 1
  ∧ outcome install_ijulia w = inl (CalledProcessError 1 install_argv)
  ∧ outcome conf w = inl (CalledProcessError 1 install_argv).
Proof.
  intros w.
  assert (spawns (trace install_ijulia w) ≠ []) as Hs by (vm_compute; discriminate).
  assert (popen w install_argv = inr 1) as Hp by reflexivity.
  assert (1 ≠ 0) as Hne by lia.
  pose proof (install_ijulia_propagates_failure w 1 Hs Hp) as (_ & _ & Hf).
  destruct (Hf Hne) as [Ho Hc].
  exact (conj Hs (conj Hp (conj Ho (proj1 (Hc eq_refl eq_refl))))).
Defined.

(** ** get_nb_exclusion_patterns *)

Lemma julia_pattern_added : "report/019*" ∈ exclusions_with_julia.
Proof. rewrite exclusions_with_julia_eq. compute_done. Qed.

Lemma julia_pattern_not_in_base : "report/019*" ∉ exclusions_literal.
Proof. compute_done. Qed.

Lemma base_kept : exclusions_literal ⊆ exclusions_with_julia.
Proof.
  intros p Hp. unfold exclusions_with_julia.
  rewrite merge_sort_Permutation. apply elem_of_app. by left.
Qed.

Lemma exclusions_literal_ascending :
  StronglySorted String.le exclusions_literal ∧ NoDup exclusions_literal.
Proof. split; [compute_done | apply NoDup_exclusions_literal]. Qed.

Lemma exclusions_with_julia_ascending :
  StronglySorted String.le exclusions_with_julia
  ∧ NoDup exclusions_with_julia.
Proof.
  split.
  - apply (StronglySorted_merge_sort String.le).
  - unfold exclusions_with_julia. rewrite merge_sort_Permutation.
    apply NoDup_exclusions_all.
Qed.

Lemma extra_condition (w : World) :
  which_is_None w "julia" || in_environ w "READTHEDOCS" = true
  ↔ ¬ julia_present w ∨ hosted_build w.
Proof.
  unfold julia_present, hosted_build.
  rewrite orb_true_iff, which_is_None_true, in_environ_true.
  by rewrite <- eq_None_not_Some.
Qed.

(** C3: when julia is not on the search path, get_nb_exclusion_patterns
    returns a list that contains "report/019*". *)
Theorem exclusions_without_julia (w : World) :
  which w "julia" = None →
  ∃ l, outcome get_nb_exclusion_patterns w = inr l ∧ "report/019*" ∈ l.
Proof.
  intros Hj. unfold outcome. rewrite get_nb_exclusion_patterns_run.
  apply which_is_None_true in Hj. rewrite Hj. simpl.
  eexists. split; [done|]. apply julia_pattern_added.
Qed.

Lemma exclusions_without_julia_witness :
  let w := world None ∅ 0 in
  which w "julia" = None
  ∧ ∃ l, outcome get_nb_exclusion_patterns w = inr l ∧ "report/019*" ∈ l.
Proof.
  intros w.
  assert (which w "julia" = None) as Hj by reflexivity.
  exact (conj Hj (exclusions_without_julia w Hj)).
Defined.

(** C4: when READTHEDOCS is in the environment, get_nb_exclusion_patterns
    returns a list that contains "report/019*", whether or not julia is on
    the search path. *)
Theorem exclusions_on_hosted_build (w : World) :
  hosted_build w →
  ∃ l, outcome get_nb_exclusion_patterns w = inr l ∧ "report/019*" ∈ l.
Proof.
  intros Hh. unfold outcome. rewrite get_nb_exclusion_patterns_run.
  apply in_environ_true in Hh. rewrite Hh, orb_true_r. simpl.
  eexists. split; [done|]. apply julia_pattern_added.
Qed.

Lemma exclusions_on_hosted_build_witness :
  let w := world julia_path {["READTHEDOCS" := "True"]} 0 in
  hosted_build w
  ∧ julia_present w
  ∧ ∃ l, outcome get_nb_exclusion_patterns w = inr l ∧ "report/019*" ∈ l.
Proof.
  intros w.
  assert (hosted_build w) as Hh by (vm_compute; eauto).
  assert (julia_present w) as Hj by (vm_compute; eauto).
  exact (conj Hh (conj Hj (exclusions_on_hosted_build w Hh))).
Defined.

(** C5: the list get_nb_exclusion_patterns returns depends only on
    whether julia is on the search path and whether READTHEDOCS is set:
    two worlds that agree on these two facts, whatever else differs
    (other variables, the order in which sets are iterated), get the same
    list; and the list is in ascending order without duplicates. *)
Theorem exclusions_deterministic_sorted (w1 w2 : World) :
  (julia_present w1 ↔ julia_present w2) →
  (hosted_build w1 ↔ hosted_build w2) →
  ∃ l, outcome get_nb_exclusion_patterns w1 = inr l
       ∧ outcome get_nb_exclusion_patterns w2 = inr l
       ∧ StronglySorted String.le l
       ∧ NoDup l.
Proof.
  intros Hj Hh. unfold outcome. rewrite !get_nb_exclusion_patterns_run.
  assert (which_is_None w1 "julia" || in_environ w1 "READTHEDOCS"
          = which_is_None w2 "julia" || in_environ w2 "READTHEDOCS") as ->.
  { apply eq_true_iff_eq. rewrite !extra_condition. by rewrite Hj, Hh. }
  destruct (which_is_None w2 "julia" || in_environ w2 "READTHEDOCS"); simpl.
  - exists exclusions_with_julia.
    split; [done|]. split; [done|]. apply exclusions_with_julia_ascending.
  - exists exclusions_literal.
    split; [done|]. split; [done|]. apply exclusions_literal_ascending.
Qed.

Lemma exclusions_deterministic_sorted_witness :
  let w1 := world None {["EXECUTE_NB" := "1"]} 0 in
  let w2 := world_reversed None ∅ 1 in
  (julia_present w1 ↔ julia_present w2)
  ∧ (hosted_build w1 ↔ hosted_build w2)
  ∧ ∃ l, outcome get_nb_exclusion_patterns w1 = inr l
         ∧ outcome get_nb_exclusion_patterns w2 = inr l
         ∧ StronglySorted String.le l
         ∧ NoDup l.
Proof.
  intros w1 w2.
  assert (julia_present w1 ↔ julia_present w2) as Hj
    by (vm_compute; split; intros H; exact H).
  assert (hosted_build w1 ↔ hosted_build w2) as Hh
    by (vm_compute; split; intros H; exact H).
  exact (conj Hj (conj Hh (exclusions_deterministic_sorted w1 w2 Hj Hh))).
Defined.

Lemma base_in_result (w : World) :
  ∃ l, outcome get_nb_exclusion_patterns w = inr l ∧ exclusions_literal ⊆ l.
Proof.
  unfold outcome. rewrite get_nb_exclusion_patterns_run.
  case_match; eexists; (split; [done|]); [apply base_kept | done].
Qed.

Lemma base_never_removed (w : World) : ¬ removes_from_base w.
Proof.
  destruct (base_in_result w) as (l & Hl & Hsub).
  intros (l' & p & Hl' & Hp & Hnp). apply Hnp.
  rewrite Hl in Hl'. injection Hl' as <-. by apply Hsub.
Qed.

(** C8, as the code has it: the local set is updated in place at most
    once, and only by adding.  The update happens exactly when julia is
    not on the search path or READTHEDOCS is set, and adds the julia
    notebooks to the base set; otherwise the set is not mutated.  Every
    pattern of the base set is in the result: nothing is removed. *)
Theorem exclusions_only_added (w : World) :
  ∃ l, outcome get_nb_exclusion_patterns w = inr l
       ∧ exclusions_literal ⊆ l
       ∧ l ⊆ exclusions_literal ++ julia_notebooks_literal
       ∧ ¬ removes_from_base w
       ∧ mutations (trace get_nb_exclusion_patterns w) =
           (if which_is_None w "julia" || in_environ w "READTHEDOCS"
            then [update_exclusions] else [])
       ∧ ("report/019*" ∈ l ↔ ¬ julia_present w ∨ hosted_build w).
Proof.
  pose proof (base_never_removed w) as Hrem.
  pose proof (extra_condition w) as Hc. revert Hc.
  unfold outcome, trace. rewrite get_nb_exclusion_patterns_run.
  destruct (which_is_None w "julia" || in_environ w "READTHEDOCS");
    cbn [fst snd]; intros Hc.
  - exists exclusions_with_julia. split; [done|].
    split; [apply base_kept|]. split.
    { intros p. unfold exclusions_with_julia.
      by rewrite merge_sort_Permutation. }
    split; [done|]. split; [done|].
    split; [intros _; by apply Hc | intros _; apply julia_pattern_added].
  - exists exclusions_literal. split; [done|]. split; [done|]. split.
    { intros p Hp. apply elem_of_app. by left. }
    split; [done|]. split; [done|]. split.
    + intros Hin. by destruct julia_pattern_not_in_base.
    + intros H. apply Hc in H. discriminate.
Qed.

(** C8, as stated, fails: with julia on the search path and READTHEDOCS
    unset the set is not mutated at all, and neither there nor in a world
    without julia is any pattern of the base set removed. *)
Lemma exclusions_mutated_once_counterexample :
  mutations (trace get_nb_exclusion_patterns (world julia_path ∅ 0)) = []
  ∧ ¬ adds_to_base (world julia_path ∅ 0)
  ∧ ¬ removes_from_base (world julia_path ∅ 0)
  ∧ ¬ removes_from_base (world None ∅ 0).
Proof.
  split; [|split; [|split]].
  - unfold trace. by rewrite get_nb_exclusion_patterns_run.
  - intros (l & p & Hl & Hp & Hnp). unfold outcome in Hl.
    rewrite get_nb_exclusion_patterns_run in Hl. simpl in Hl.
    injection Hl as <-. done.
  - apply base_never_removed.
  - apply base_never_removed.
Qed.

(** C10: with julia on the search path and READTHEDOCS unset,
    get_nb_exclusion_patterns returns exactly the 20 base patterns, in
    ascending order, and "report/019*" is not among them; in every world
    the result contains the base patterns and has 20 or 21 elements. *)
Theorem exclusions_base_case (w : World) :
  (julia_present w → ¬ hosted_build w →
     outcome get_nb_exclusion_patterns w = inr exclusions_literal
     ∧ ("report/019*" ∉ exclusions_literal)
     ∧ length exclusions_literal = 20%nat
     ∧ StronglySorted String.le exclusions_literal)
  ∧ (∃ l, outcome get_nb_exclusion_patterns w = inr l
          ∧ exclusions_literal ⊆ l
          ∧ (length l = 20%nat ∨ length l = 21%nat)).
Proof.
  pose proof (extra_condition w) as Hc. revert Hc.
  unfold outcome. rewrite get_nb_exclusion_patterns_run.
  destruct (which_is_None w "julia" || in_environ w "READTHEDOCS");
    simpl; intros Hc; split.
  - intros Hj Hh. destruct Hc as [Hc _]. by destruct (Hc eq_refl).
  - exists exclusions_with_julia. split; [done|].
    split; [apply base_kept|]. right.
    by rewrite exclusions_with_julia_eq.
  - intros _ _. split; [done|]. split; [apply julia_pattern_not_in_base|].
    split; [done|]. apply exclusions_literal_ascending.
  - exists exclusions_literal. split; [done|]. split; [done|]. by left.
Qed.

Lemma exclusions_base_case_witness :
  let w := world julia_path {["EXECUTE_NB" := "1"]} 0 in
  julia_present w
  ∧ ¬ hosted_build w
  ∧ outcome get_nb_exclusion_patterns w = inr exclusions_literal.
Proof.
  intros w.
  assert (julia_present w) as Hj by (vm_compute; eauto).
  assert (¬ hosted_build w) as Hh by (vm_compute; intros [? [=]]).
  exact (conj Hj (conj Hh (proj1 (proj1 (exclusions_base_case w) Hj Hh)))).
Defined.

(** ** The module body *)

Lemma emits_silent {X A} (f : event → option X) (m : M A) :
  (∀ w, omap f (trace m w) = []) → emits f m [].
Proof. intros H w. rewrite H. by split. Qed.

Lemma emits_assign name v : emits assigned (assign name v) [name].
Proof. apply (emits_emit assigned). Qed.

Lemma emits_extern {X A} (f : event → option X) callee args
    (g : World → exn + A) :
  f (ECall callee args) = None → emits f (extern callee args g) [].
Proof.
  intros Hf. apply emits_silent. intros w. unfold trace.
  rewrite extern_run. simpl. by rewrite Hf.
Qed.

Lemma emits_getitem {X} (f : event → option X) d k : emits f (getitem d k) [].
Proof.
  apply emits_silent. intros w. unfold trace, getitem.
  repeat case_match; done.
Qed.

Lemma install_ijulia_assigns_nothing : emits assigned install_ijulia [].
Proof.
  apply emits_silent. intros w. unfold trace. rewrite install_ijulia_run.
  repeat case_match; done.
Qed.

Lemma get_nb_exclusion_patterns_assigns_nothing :
  emits assigned get_nb_exclusion_patterns [].
Proof.
  apply emits_silent. intros w. unfold trace.
  rewrite get_nb_exclusion_patterns_run. repeat case_match; done.
Qed.

Ltac emits_step :=
  cbv beta zeta;
  first
    [ apply emits_assign
    | apply emits_extern; reflexivity
    | apply emits_getitem
    | apply install_ijulia_assigns_nothing
    | apply get_nb_exclusion_patterns_assigns_nothing
    | apply (emits_emit assigned (EMutate _ _))
    | eapply emits_bind; [|intros ?] ].

Lemma conf_assigns : emits assigned conf config_names.
Proof.
  eapply emits_eq.
  - unfold conf. repeat emits_step.
  - reflexivity.
Qed.

Lemma always_silent {A} (P : event → Prop) (m : M A) :
  (∀ w, trace m w = []) → always P m.
Proof. intros H w. rewrite H. constructor. Qed.

Lemma always_extern {A} (P : event → Prop) callee args (g : World → exn + A) :
  P (ECall callee args) → always P (extern callee args g).
Proof.
  intros HP w. unfold trace. rewrite extern_run. simpl. by repeat constructor.
Qed.

Lemma always_getitem (P : event → Prop) d k : always P (getitem d k).
Proof.
  apply always_silent. intros w. unfold trace, getitem.
  repeat case_match; done.
Qed.

Lemma install_ijulia_mutates_no_global :
  always (λ e, ¬ mutates_global e) install_ijulia.
Proof.
  intros w. unfold trace. rewrite install_ijulia_run.
  repeat case_match; simpl; repeat constructor; tauto.
Qed.

Lemma get_nb_exclusion_patterns_mutates_no_global :
  always (λ e, ¬ mutates_global e) get_nb_exclusion_patterns.
Proof.
  intros w. unfold trace. rewrite get_nb_exclusion_patterns_run.
  repeat case_match; simpl; repeat constructor; tauto.
Qed.

Ltac always_step :=
  cbv beta zeta;
  first
    [ apply always_emit; simpl; tauto
    | apply always_extern; simpl; tauto
    | apply always_getitem
    | apply install_ijulia_mutates_no_global
    | apply get_nb_exclusion_patterns_mutates_no_global
    | apply always_bind; [|intros ?] ].

Lemma conf_mutates_no_global : always (λ e, ¬ mutates_global e) conf.
Proof. unfold conf, assign. repeat always_step. Qed.

Lemma filter_eq_absent (name : string) (l : list string) :
  name ∉ l → filter (λ n, n = name) l = [].
Proof.
  induction l as [|x l IH]; [done|].
  intros [Hx Hl]%not_elem_of_cons. rewrite filter_cons.
  case_decide; [congruence | by apply IH].
Qed.

Lemma filter_eq_NoDup (name : string) (l : list string) :
  NoDup l →
  (length (filter (λ n, n = name) l) ≤ 1)%nat
  ∧ (name ∈ l → length (filter (λ n, n = name) l) = 1%nat).
Proof.
  induction 1 as [|x l Hx Hl IH].
  { split; [simpl; lia | by intros ?%elem_of_nil]. }
  destruct IH as [IH1 IH2]. rewrite filter_cons. case_decide as Hd.
  - subst x. rewrite (filter_eq_absent name l Hx). simpl. split; [lia | done].
  - split; [done|]. intros [->|Hin]%elem_of_cons; [done | by apply IH2].
Qed.

Lemma NoDup_config_names : NoDup config_names.
Proof. compute_done. Qed.

Lemma NoDup_prefix {A} (l1 l2 : list A) : l1 `prefix_of` l2 → NoDup l2 → NoDup l1.
Proof. intros [k ->] H. by apply NoDup_app in H as [? _]. Qed.

(** C9: in every run of the module no name is bound more than once and no
    object bound to a module-level name is mutated in place; in a run that
    reaches the end of the file every configuration name, among them
    exclude_patterns, intersphinx_mapping, linkcheck_ignore,
    html_theme_options and nb_execution_excludepatterns, is bound exactly
    once. *)
Theorem config_assigned_once_never_mutated (w : World) :
  (∀ name, times_assigned name (trace conf w) ≤ 1)%nat
  ∧ Forall (λ e, ¬ mutates_global e) (trace conf w)
  ∧ Forall (.∈ config_names)
      ["exclude_patterns"; "intersphinx_mapping"; "linkcheck_ignore";
       "html_theme_options"; "nb_execution_excludepatterns"]
  ∧ (finishes conf w →
       assignments (trace conf w) = config_names
       ∧ ∀ name, name ∈ config_names →
           times_assigned name (trace conf w) = 1%nat).
Proof.
  destruct (conf_assigns w) as [Hpre Hfin].
  split; [|split; [|split]].
  - intros name. unfold times_assigned.
    apply filter_eq_NoDup. eapply NoDup_prefix; [done|].
    apply NoDup_config_names.
  - apply conf_mutates_no_global.
  - compute_done.
  - intros Hf. unfold times_assigned, assignments. rewrite (Hfin Hf).
    split; [done|]. intros name Hn.
    by apply filter_eq_NoDup; [apply NoDup_config_names|].
Qed.

Lemma config_assigned_once_never_mutated_witness :
  let w := world julia_path {["EXECUTE_NB" := "1"]} 0 in
  finishes conf w
  ∧ assignments (trace conf w) = config_names
  ∧ times_assigned "nb_execution_excludepatterns" (trace conf w) = 1%nat.
Proof.
  intros w.
  assert (finishes conf w) as Hf by (exists tt; vm_compute; reflexivity).
  destruct (config_assigned_once_never_mutated w) as (_ & _ & _ & H).
  destruct (H Hf) as [Ha Ht].
  refine (conj Hf (conj Ha (Ht _ _))). compute_done.
Defined.
(** ** Running the module step by step *)

Lemma run_bind_ok {A B} (m : M A) (k : A → M B) w t a t' r :
  m w = (t, inr a) → k a w = (t', r) → bind m k w = (t ++ t', r).
Proof. unfold bind. by intros -> ->. Qed.

Lemma extern_ok {A} callee args (f : World → exn + A) w a :
  f w = inr a → extern callee args f w = ([ECall callee args], inr a).
Proof. intros H. by rewrite extern_run, H. Qed.

Lemma extern_err {A} callee args (f : World → exn + A) w e :
  f w = inl e → extern callee args f w = ([ECall callee args], inl e).
Proof. intros H. by rewrite extern_run, H. Qed.

Lemma get_nb_exclusion_patterns_ok (w : World) :
  get_nb_exclusion_patterns w =
    (trace get_nb_exclusion_patterns w, inr (exclusions_of w)).
Proof.
  unfold trace, exclusions_of. rewrite get_nb_exclusion_patterns_run.
  by case_match.
Qed.

(** One statement that returns: its result is in the context, or it is a
    binding, an event or a lookup, whose result is computed. *)
Ltac run_head_ok :=
  first
    [ eassumption
    | eapply extern_ok; cbv beta; eassumption
    | apply get_nb_exclusion_patterns_ok
    | reflexivity ].

Ltac run_head_err :=
  first
    [ eassumption
    | eapply extern_err; cbv beta; eassumption ].

(** The whole module: statements that return are passed, the first one
    that raises ends the run. *)
Ltac run_conf :=
  unfold conf;
  repeat (cbv beta zeta;
          first
            [ eapply run_bind_ok; [solve [run_head_ok]|]
            | eapply run_bind_inl; solve [run_head_err] ]);
  cbv beta zeta; try solve [run_head_ok | run_head_err].

Lemma first_failure_example :
  first_failure [None; Some (Raised "a" "b"); Some (Raised "c" "d")]
  = Some (Raised "a" "b").
Proof. reflexivity. Qed.

Lemma conf_outcome (w : World) :
  outcome conf w =
    match first_failure (fallible_steps w) with
    | Some e => inl e
    | None => inr tt
    end.
Proof.
  unfold fallible_steps, outcome at 2.
  destruct (import__list_technical_reports w) as [e|[]] eqn:Himp.
  { eassert (conf w = (_, inl e)) as Hrun by run_conf. unfold outcome. by rewrite Hrun. }
  destruct (_list_technical_reports_main w) as [e|[]] eqn:Hmain.
  { eassert (conf w = (_, inl e)) as Hrun by run_conf. unfold outcome. by rewrite Hrun. }
  destruct (install_ijulia w) as [ti [e|[]]] eqn:Hinst.
  { eassert (conf w = (_, inl e)) as Hrun by run_conf. unfold outcome. by rewrite Hrun. }
  destruct (set_intersphinx_version_remapping w intersphinx_version_remapping)
    as [e|[]] eqn:Hset.
  { eassert (conf w = (_, inl e)) as Hrun by run_conf. unfold outcome. by rewrite Hrun. }
  destruct (_get_commit_sha w) as [e|sha] eqn:Hsha.
  { eassert (conf w = (_, inl e)) as Hrun by run_conf. unfold outcome. by rewrite Hrun. }
  destruct (pin w "attrs") as [e|a1] eqn:H1.
  { eassert (conf w = (_, inl e)) as Hrun by run_conf. unfold outcome. by rewrite Hrun. }
  destruct (pin w "IPython") as [e|a2] eqn:H2.
  { eassert (conf w = (_, inl e)) as Hrun by run_conf. unfold outcome. by rewrite Hrun. }
  destruct (pin w "ipywidgets") as [e|a3] eqn:H3.
  { eassert (conf w = (_, inl e)) as Hrun by run_conf. unfold outcome. by rewrite Hrun. }
  destruct (pin w "matplotlib") as [e|a4] eqn:H4.
  { eassert (conf w = (_, inl e)) as Hrun by run_conf. unfold outcome. by rewrite Hrun. }
  destruct (pin w "mpl-interactions") as [e|a5] eqn:H5.
  { eassert (conf w = (_, inl e)) as Hrun by run_conf. unfold outcome. by rewrite Hrun. }
  destruct (pin_minor w "numpy") as [e|a6] eqn:H6.
  { eassert (conf w = (_, inl e)) as Hrun by run_conf. unfold outcome. by rewrite Hrun. }
  destruct (get_execution_mode w) as [e|mode] eqn:Hmode.
  { eassert (conf w = (_, inl e)) as Hrun by run_conf. unfold outcome. by rewrite Hrun. }
  eassert (conf w = (_, inr tt)) as Hrun by run_conf.
  unfold outcome. by rewrite Hrun.
Qed.

Lemma first_failure_None (steps : list (option exn)) :
  first_failure steps = None ↔ Forall (λ o, o = None) steps.
Proof.
  induction steps as [|[e|] steps IH]; simpl.
  - split; [constructor | done].
  - split; [done | by intros [[=] _]%Forall_cons_1].
  - rewrite IH. split; [by constructor | by intros [_ ?]%Forall_cons_1].
Qed.




(** X2: install_ijulia returns exactly when julia is not on the search
    path, or neither EXECUTE_NB nor FORCE_EXECUTE_NB is set, or the child
    process exits with status 0; a child that cannot be started makes it
    raise the exception of the start. *)
Theorem install_ijulia_returns_iff (w : World) :
  (outcome install_ijulia w = inr tt ↔
     which w "julia" = None
     ∨ (¬ is_Some (environ w !! "EXECUTE_NB")
        ∧ ¬ is_Some (environ w !! "FORCE_EXECUTE_NB"))
     ∨ popen w install_argv = inr 0)
  ∧ (∀ e, popen w install_argv = inl e →
          spawns (trace install_ijulia w) ≠ [] →
          outcome install_ijulia w = inl e).
Proof.
  unfold outcome, trace. rewrite install_ijulia_run.
  destruct (which_is_None w "julia") eqn:Hj.
  { apply which_is_None_true in Hj. split; [by split; [left|]|done]. }
  assert (which w "julia" ≠ None) as Hj'.
  { intros H%which_is_None_true. congruence. }
  assert (∀ P : Prop, (P ↔
      which w "julia" = None
      ∨ (¬ is_Some (environ w !! "EXECUTE_NB")
         ∧ ¬ is_Some (environ w !! "FORCE_EXECUTE_NB"))
      ∨ popen w install_argv = inr 0)
    ↔ (P ↔ (in_environ w "EXECUTE_NB" || in_environ w "FORCE_EXECUTE_NB"
             = false ∨ popen w install_argv = inr 0))) as Hiff.
  { intros P. rewrite orb_false_iff, !in_environ_false. tauto. }
  rewrite Hiff. clear Hiff.
  destruct (in_environ w "EXECUTE_NB" || in_environ w "FORCE_EXECUTE_NB");
    simpl; [|by split; [split; [left|]|]].
  split; [|by intros e ->].
  destruct (popen w install_argv) as [e|rc]; simpl.
  - split; [done | by intros [?|?]].
  - case_bool_decide as Hrc.
    + subst. split; [by right | done].
    + split; [done | intros [?|?]; by simplify_eq].
Qed.

Lemma install_ijulia_returns_iff_witness :
  let w := world julia_path {["EXECUTE_NB" := "1"]} 0 in
  popen w install_argv = inr 0 ∧ outcome install_ijulia w = inr tt.
Proof.
  intros w.
  assert (popen w install_argv = inr 0) as Hp by reflexivity.
  exact (conj Hp
    (proj2 (proj1 (install_ijulia_returns_iff w)) (or_intror (or_intror Hp)))).
Defined.

(** ** The configuration of a finished run *)

Lemma globals_bindings (t : list event) :
  globals t = foldl (λ g nv, <[nv.1 := nv.2]> g) ∅ (bindings t).
Proof.
  unfold globals. generalize (∅ : gmap string pyval).
  induction t as [|e t IH]; intros g; [done|].
  destruct e; simpl; apply IH.
Qed.

Lemma yields_bind {A B} (m : M A) (k : A → M B) w L1 L2 a r :
  yields m w L1 (inr a) → yields (k a) w L2 r →
  yields (bind m k) w (L1 ++ L2) r.
Proof.
  intros [Ho <-] [<- <-].
  destruct (trace_bind_inr m k w a Ho) as [Ht Hb].
  unfold yields, bindings. by rewrite Ht, Hb, omap_app.
Qed.

Lemma yields_assign name v w : yields (assign name v) w [(name, v)] (inr tt).
Proof. by split. Qed.

Lemma yields_mutate obj meth w : yields (emit (EMutate obj meth)) w [] (inr tt).
Proof. by split. Qed.

Lemma yields_extern {A} callee args (f : World → exn + A) w a :
  f w = inr a → yields (extern callee args f) w [] (inr a).
Proof.
  intros H. unfold yields, outcome, trace.
  by rewrite (extern_ok _ _ _ _ _ H).
Qed.

Lemma yields_getitem kvs k v w :
  dict_get kvs k = Some v → yields (getitem (PDict kvs) k) w [] (inr v).
Proof. intros H. unfold yields, outcome, trace, getitem. by rewrite H. Qed.

Lemma yields_install_ijulia w :
  outcome install_ijulia w = inr tt → yields install_ijulia w [] (inr tt).
Proof.
  intros H. split; [done|]. unfold trace. rewrite install_ijulia_run.
  repeat case_match; done.
Qed.

Lemma yields_get_nb_exclusion_patterns w :
  yields get_nb_exclusion_patterns w [] (inr (exclusions_of w)).
Proof.
  unfold yields, outcome, trace, exclusions_of.
  rewrite get_nb_exclusion_patterns_run. by case_match.
Qed.

Ltac yields_head :=
  first
    [ apply yields_assign
    | apply yields_mutate
    | eapply yields_extern; cbv beta; eassumption
    | apply yields_install_ijulia; assumption
    | apply yields_get_nb_exclusion_patterns
    | eapply yields_getitem; reflexivity ].

Ltac run_yields :=
  unfold conf;
  repeat (cbv beta zeta; eapply yields_bind; [solve [yields_head]|]);
  cbv beta zeta; solve [yields_head].

Lemma finishes_inv (w : World) :
  finishes conf w →
  outcome install_ijulia w = inr tt
  ∧ import__list_technical_reports w = inr tt
  ∧ _list_technical_reports_main w = inr tt
  ∧ set_intersphinx_version_remapping w intersphinx_version_remapping = inr tt
  ∧ ∃ sha a1 a2 a3 a4 a5 a6 mode,
      _get_commit_sha w = inr sha
      ∧ pin w "attrs" = inr a1
      ∧ pin w "IPython" = inr a2
      ∧ pin w "ipywidgets" = inr a3
      ∧ pin w "matplotlib" = inr a4
      ∧ pin w "mpl-interactions" = inr a5
      ∧ pin_minor w "numpy" = inr a6
      ∧ get_execution_mode w = inr mode.
Proof.
  intros [[] Hf]. rewrite conf_outcome in Hf.
  destruct (first_failure (fallible_steps w)) eqn:Hff; [done|].
  apply first_failure_None in Hff. unfold fallible_steps in Hff.
  repeat match goal with
         | H : Forall _ (_ :: _) |- _ => apply Forall_cons_1 in H as [? H]
         end.
  destruct (outcome install_ijulia w) as [|[]]; [done|].
  destruct (import__list_technical_reports w) as [|[]]; [done|].
  destruct (_list_technical_reports_main w) as [|[]]; [done|].
  destruct (set_intersphinx_version_remapping w _) as [|[]]; [done|].
  destruct (_get_commit_sha w) as [|sha]; [done|].
  destruct (pin w "attrs") as [|a1]; [done|].
  destruct (pin w "IPython") as [|a2]; [done|].
  destruct (pin w "ipywidgets") as [|a3]; [done|].
  destruct (pin w "matplotlib") as [|a4]; [done|].
  destruct (pin w "mpl-interactions") as [|a5]; [done|].
  destruct (pin_minor w "numpy") as [|a6]; [done|].
  destruct (get_execution_mode w) as [|mode]; [done|].
  repeat split; try done. by exists sha, a1, a2, a3, a4, a5, a6, mode.
Qed.

(** From [Hf : finishes conf w]: the results of the calls, and the
    bindings of the run as [Hconfig : config w = ...]. *)
Ltac conf_finished w Hf :=
  let Hinst := fresh "Hinst" in
  let Himp := fresh "Himp" in
  let Hmain := fresh "Hmain" in
  let Hset := fresh "Hset" in
  let Hy := fresh "Hy" in
  destruct (finishes_inv w Hf)
    as (Hinst & Himp & Hmain & Hset & sha & a1 & a2 & a3 & a4 & a5 & a6 & mode
        & Hsha & H1 & H2 & H3 & H4 & H5 & H6 & Hmode);
  eassert (yields conf w _ (inr tt)) as Hy by run_yields;
  pose proof (globals_bindings (trace conf w)) as Hconfig;
  rewrite (proj2 Hy) in Hconfig; fold (config w) in Hconfig;
  clear Hy.

(** X3: the value bound to nb_execution_excludepatterns in a finished
    run is the list get_nb_exclusion_patterns returns in that world, and
    it excludes the julia notebooks exactly when julia is not on the
    search path or READTHEDOCS is set. *)
Theorem nb_execution_excludepatterns_value (w : World) :
  finishes conf w →
  ∃ l, outcome get_nb_exclusion_patterns w = inr l
       ∧ config w !! "nb_execution_excludepatterns" = Some (strs l)
       ∧ ("report/019*" ∈ l ↔ ¬ julia_present w ∨ hosted_build w).
Proof.
  intros Hf. conf_finished w Hf. exists (exclusions_of w). split; [|split].
  - apply yields_get_nb_exclusion_patterns.
  - rewrite Hconfig. generalize (exclusions_of w). intros excl.
    vm_compute. reflexivity.
  - rewrite <- extra_condition. unfold exclusions_of.
    destruct (which_is_None w "julia" || in_environ w "READTHEDOCS").
    + split; [done | intros _; apply julia_pattern_added].
    + split; [intros H; by destruct julia_pattern_not_in_base | done].
Qed.

Lemma nb_execution_excludepatterns_value_witness :
  let w := world None {["EXECUTE_NB" := "1"]} 1 in
  finishes conf w
  ∧ ∃ l, config w !! "nb_execution_excludepatterns" = Some (strs l)
         ∧ "report/019*" ∈ l.
Proof.
  intros w.
  assert (finishes conf w) as Hf by (exists tt; vm_compute; reflexivity).
  destruct (nb_execution_excludepatterns_value w Hf) as (l & _ & Hl & Hin).
  refine (conj Hf (ex_intro _ l (conj Hl (proj2 Hin (or_introl _))))).
  vm_compute. intros [? [=]].
Defined.

(** X4: in a finished run the commit hash returned by _get_commit_sha is
    the value of BRANCH, of html_theme_options["repository_branch"], of
    myst_substitutions["branch"] and of thebe_config["repository_branch"],
    and it is the branch in BINDER_LINK. *)
Theorem branch_used_consistently (w : World) :
  finishes conf w →
  ∃ sha, _get_commit_sha w = inr sha
    ∧ config w !! "BRANCH" = Some (PStr sha)
    ∧ item (config w !! "html_theme_options") "repository_branch"
      = Some (PStr sha)
    ∧ item (config w !! "myst_substitutions") "branch" = Some (PStr sha)
    ∧ item (config w !! "thebe_config") "repository_branch" = Some (PStr sha)
    ∧ config w !! "BINDER_LINK" =
        Some (PStr ("https://mybinder.org/v2/gh/ComPWA/compwa.github.io/"
                    +:+ sha +:+ "?filepath=docs/usage")).
Proof.
  intros Hf. conf_finished w Hf. exists sha. split; [done|].
  rewrite Hconfig. generalize (exclusions_of w). intros excl.
  repeat split; vm_compute; reflexivity.
Qed.

Lemma branch_used_consistently_witness :
  let w := world julia_path ∅ 0 in
  finishes conf w
  ∧ config w !! "BRANCH" = Some (PStr "0123abc")
  ∧ item (config w !! "thebe_config") "repository_branch"
    = Some (PStr "0123abc").
Proof.
  intros w.
  assert (finishes conf w) as Hf by (exists tt; vm_compute; reflexivity).
  destruct (branch_used_consistently w Hf)
    as (sha & Hsha & Hb & _ & _ & Ht & _).
  assert (sha = "0123abc") as <- by (vm_compute in Hsha; congruence).
  exact (conj Hf (conj Hb Ht)).
Defined.

(** X5: in a finished run thebe_config has exactly the keys repository_url
    and repository_branch, and each holds the value html_theme_options
    has under that key; the two lookups of lines 285 and 286 succeed. *)
Theorem thebe_config_mirrors_theme_options (w : World) :
  finishes conf w →
  ∃ url branch,
    config w !! "thebe_config" =
      Some (PDict [("repository_url", url); ("repository_branch", branch)])
    ∧ item (config w !! "html_theme_options") "repository_url" = Some url
    ∧ item (config w !! "html_theme_options") "repository_branch"
      = Some branch.
Proof.
  intros Hf. conf_finished w Hf. rewrite Hconfig.
  generalize (exclusions_of w). intros excl.
  do 2 eexists. repeat split; vm_compute; reflexivity.
Qed.

Lemma thebe_config_mirrors_theme_options_witness :
  let w := world_reversed None ∅ 0 in
  finishes conf w
  ∧ ∃ url branch,
      config w !! "thebe_config" =
        Some (PDict [("repository_url", url); ("repository_branch", branch)])
      ∧ item (config w !! "html_theme_options") "repository_url" = Some url
      ∧ item (config w !! "html_theme_options") "repository_branch"
        = Some branch.
Proof.
  intros w.
  assert (finishes conf w) as Hf by (exists tt; vm_compute; reflexivity).
  exact (conj Hf (thebe_config_mirrors_theme_options w Hf)).
Defined.

(** X6: in a finished run nb_execution_mode is what get_execution_mode
    returns, and the remark about the generated julia project files
    (myst_substitutions["remark_019"]) is the empty string exactly when
    that mode is "off". *)
Theorem remark_019_follows_execution_mode (w : World) :
  finishes conf w →
  ∃ mode remark,
    get_execution_mode w = inr mode
    ∧ config w !! "nb_execution_mode" = Some (PStr mode)
    ∧ item (config w !! "myst_substitutions") "remark_019"
      = Some (PStr remark)
    ∧ (remark = "" ↔ mode = "off").
Proof.
  intros Hf. conf_finished w Hf. revert Hconfig.
  generalize (exclusions_of w). intros excl Hconfig.
  exists mode. destruct (decide (mode = "off")) as [->|Hne].
  - exists "". rewrite Hconfig. split; [done|].
    repeat split; vm_compute; reflexivity.
  - rewrite (bool_decide_eq_true_2 (mode ≠ "off") Hne) in Hconfig.
    rewrite Hconfig. eexists. split; [done|].
    split; [vm_compute; reflexivity|].
    split; [vm_compute; reflexivity|]. split; [discriminate | done].
Qed.

Lemma remark_019_follows_execution_mode_witness :
  let w := world julia_path ∅ 0 in
  finishes conf w
  ∧ item (config w !! "myst_substitutions") "remark_019" = Some (PStr "").
Proof.
  intros w.
  assert (finishes conf w) as Hf by (exists tt; vm_compute; reflexivity).
  destruct (remark_019_follows_execution_mode w Hf)
    as (mode & remark & Hmode & _ & Hr & Hiff).
  assert (mode = "off") as Hoff by (vm_compute in Hmode; congruence).
  rewrite (proj2 Hiff Hoff) in Hr. exact (conj Hf Hr).
Defined.




(** X8: in a finished run intersphinx_mapping is a dictionary of 24
    entries with pairwise different keys, and every value is a pair of an
    https URL and None, whatever versions pin and pin_minor return. *)
Theorem intersphinx_mapping_shape (w : World) :
  finishes conf w →
  ∃ kvs, config w !! "intersphinx_mapping" = Some (PDict kvs)
         ∧ length kvs = 24%nat
         ∧ NoDup kvs.*1
         ∧ Forall (λ kv, https_inventory kv.2) kvs.
Proof.
  intros Hf. conf_finished w Hf. rewrite Hconfig.
  generalize (exclusions_of w). intros excl.
  eexists. split; [vm_compute; reflexivity|].
  split; [reflexivity|]. split; [compute_done|].
  repeat constructor; eexists; reflexivity.
Qed.

Lemma intersphinx_mapping_shape_witness :
  let w := world julia_path ∅ 0 in
  finishes conf w
  ∧ ∃ kvs, config w !! "intersphinx_mapping" = Some (PDict kvs)
           ∧ length kvs = 24%nat
           ∧ NoDup kvs.*1
           ∧ Forall (λ kv, https_inventory kv.2) kvs.
Proof.
  intros w.
  assert (finishes conf w) as Hf by (exists tt; vm_compute; reflexivity).
  exact (conj Hf (intersphinx_mapping_shape w Hf)).
Defined.

(** ** Child processes and mutations of the whole module *)
















(** ** The two helpers together *)

(** X11: the julia notebooks are left in the execution only where julia
    can run them.  When get_nb_exclusion_patterns does not exclude
    "report/019*", julia is on the search path and READTHEDOCS is unset;
    if moreover EXECUTE_NB or FORCE_EXECUTE_NB is set, install_ijulia has
    started the installer. *)
Theorem julia_notebooks_kept_only_with_julia (w : World) (l : list string) :
  outcome get_nb_exclusion_patterns w = inr l →
  "report/019*" ∉ l →
  julia_present w
  ∧ ¬ hosted_build w
  ∧ (is_Some (environ w !! "EXECUTE_NB")
     ∨ is_Some (environ w !! "FORCE_EXECUTE_NB") →
     spawns (trace install_ijulia w) = [install_argv]).
Proof.
  unfold outcome, trace.
  rewrite get_nb_exclusion_patterns_run, install_ijulia_run.
  destruct (which_is_None w "julia") eqn:Hj; simpl.
  { intros [= <-] Hn. destruct Hn. apply julia_pattern_added. }
  destruct (in_environ w "READTHEDOCS") eqn:Hh; simpl.
  { intros [= <-] Hn. destruct Hn. apply julia_pattern_added. }
  intros _ _. apply which_is_None_false in Hj. apply in_environ_false in Hh.
  split; [done|]. split; [done|]. intros He.
  assert (in_environ w "EXECUTE_NB" || in_environ w "FORCE_EXECUTE_NB" = true)
    as ->; [|done].
  apply orb_true_iff. by rewrite !in_environ_true.
Qed.

Lemma julia_notebooks_kept_only_with_julia_witness :
  let w := world julia_path {["EXECUTE_NB" := "1"]} 0 in
  outcome get_nb_exclusion_patterns w = inr exclusions_literal
  ∧ ("report/019*" ∉ exclusions_literal)
  ∧ spawns (trace install_ijulia w) = [install_argv].
Proof.
  intros w.
  assert (outcome get_nb_exclusion_patterns w = inr exclusions_literal) as Ho
    by (vm_compute; reflexivity).
  assert ("report/019*" ∉ exclusions_literal) as Hn
    by (apply julia_pattern_not_in_base).
  assert (is_Some (environ w !! "EXECUTE_NB")
          ∨ is_Some (environ w !! "FORCE_EXECUTE_NB")) as He
    by (left; vm_compute; eauto).
  exact (conj Ho (conj Hn
    (proj2 (proj2 (julia_notebooks_kept_only_with_julia w _ Ho Hn)) He))).
Defined.
